(** * Implementations code lens of the TypeScript language features extension

    A shallow embedding of
    [extensions/typescript-language-features/src/features/implementationsCodeLensProvider.ts]:
    the symbol classifier [extractSymbol] and the lens resolver
    [resolveCodeLens], followed by the properties of both. *)

From Stdlib Require Import ZArith List Bool Arith Lia Sorted.
From Stdlib Require Import Strings.Ascii Strings.String Numbers.DecimalString.
Import ListNotations.

Local Open Scope list_scope.
Local Open Scope string_scope.

(** ** The language service protocol ([../protocol]) *)

Module Proto.

(** A position of the service: 1-based [line] and [offset]. *)
Record Location : Type := mkLocation { line : Z; offset : Z }.

Record TextSpan : Type := mkTextSpan { start : Location; end_ : Location }.

(** [FileSpan extends TextSpan]: the coercion gives [reference.start] and
    [reference.end], and lets a [FileSpan] be passed where a [TextSpan] is
    expected. *)
Record FileSpan : Type := mkFileSpan { file : string; textSpan : TextSpan }.

(** The answer to an ['implementation'] request; [body] is optional. *)
Record ImplementationResponse : Type :=
  mkImplementationResponse { body : option (list FileSpan) }.

Record FileLocationRequestArgs : Type :=
  mkFileLocationRequestArgs { args_file : string; args_line : Z; args_offset : Z }.

End Proto.

Coercion Proto.textSpan : Proto.FileSpan >-> Proto.TextSpan.

(** ** Symbol kinds ([../protocol.const]) *)

Module PConst.

(** Modelled from the spec: [PConst.Kind], whose declaration is not part of
    the sources.  The six kinds are the ones the provider switches on; every
    further kind of the navigation tree is an [other] one, with its tag. *)
Inductive Kind : Type :=
| class
| interface
| memberFunction
| memberVariable
| memberGetAccessor
| memberSetAccessor
| other (tag : string).

End PConst.

(** A node of the navigation tree ([Proto.NavigationTree]). *)
#[warnings="-register-all"] Inductive NavigationTree : Type :=
  mkNavigationTree {
    text : string;
    kind : PConst.Kind;
    kindModifiers : string;
    spans : list Proto.TextSpan;
    childItems : list NavigationTree
  }.

(** ** Editor values ([vscode]) *)

Module vscode.

Record Position : Type := mkPosition { line : Z; character : Z }.

Record Range : Type := mkRange { start : Position; end_ : Position }.

(** [a.isBefore(b)]: by line, then by character. *)
Definition Position_isBefore (a b : Position) : bool :=
  ((line a <? line b) || ((line a =? line b) && (character a <? character b)))%Z.

(** [new vscode.Range(startLine, startCharacter, endLine, endCharacter)]:
    the two positions, the earlier one as the start; given end first, they
    are swapped.  The positions of the editor reject a negative line or
    character: the provider builds its ranges from the 1-based spans of the
    service, and the properties that read coordinates are stated for such
    spans. *)
Definition newRange (startLine startCharacter endLine endCharacter : Z) : Range :=
  let start := mkPosition startLine startCharacter in
  let end_ := mkPosition endLine endCharacter in
  if Position_isBefore start end_ then mkRange start end_ else mkRange end_ start.

(** A URI is built by the client and only ever observed through
    [toString]; it is represented by that string. *)
Record Uri : Type := mkUri { toString : string }.

Record Location : Type := mkLocation { uri : Uri; range : Range }.

Record CancellationToken : Type :=
  mkCancellationToken { isCancellationRequested : bool }.

(** [vscode.Command]: [arguments] is optional and of type [any[]], hence
    the parameter. *)
Record Command (Arg : Type) : Type :=
  mkCommand { title : string; command : string; arguments : option (list Arg) }.
Arguments mkCommand {Arg} _ _ _.
Arguments title {Arg} _.
Arguments command {Arg} _.
Arguments arguments {Arg} _.

End vscode.

(** ** Conversions ([../utils/typeConverters]) *)

Module typeConverters.

(** Modelled from the spec: [typeConverters.Range.fromTextSpan], which is
    not part of the sources; the spec has the service's coordinates 1-based
    and the display coordinates 0-based. *)
Definition Range_fromTextSpan (span : Proto.TextSpan) : vscode.Range :=
  vscode.newRange
    (Proto.line (Proto.start span) - 1) (Proto.offset (Proto.start span) - 1)
    (Proto.line (Proto.end_ span) - 1) (Proto.offset (Proto.end_ span) - 1).

(** Modelled from the spec: [typeConverters.Position.toFileLocationRequestArgs],
    which is not part of the sources: the request carries the file and the
    1-based line and column of a 0-based editor position. *)
Definition Position_toFileLocationRequestArgs
    (file : string) (position : vscode.Position) : Proto.FileLocationRequestArgs :=
  Proto.mkFileLocationRequestArgs file
    (vscode.line position + 1) (vscode.character position + 1).

End typeConverters.

(** ** The regular expression [/\babstract\b/g] *)

Module RegExp.

(** [\w] of a JavaScript regular expression without the [u] and [i]
    flags: [A-Za-z0-9_].  A character outside ASCII is never a word
    character, so the expression sees the same boundaries whether the
    modifiers are read as code units or as bytes. *)
Definition isWordChar (c : ascii) : bool :=
  let n := nat_of_ascii c in
  (((48 <=? n) && (n <=? 57)) || ((65 <=? n) && (n <=? 90))
   || (n =? 95) || ((97 <=? n) && (n <=? 122)))%nat.

(** The character on one side of a position; there is none at the two
    ends of the input, which counts as a non-word character. *)
Definition isWordSide (c : option ascii) : bool :=
  match c with
  | Some a => isWordChar a
  | None => false
  end.

(** The assertion [\b] between the characters [prev] and [next]. *)
Definition wordBoundary (prev next : option ascii) : bool :=
  xorb (isWordSide prev) (isWordSide next).

Definition head (s : string) : option ascii :=
  match s with
  | EmptyString => None
  | String c _ => Some c
  end.

(** [stripPrefix p s] is the rest of [s] after the literal [p], when [s]
    starts with it. *)
Fixpoint stripPrefix (p s : string) : option string :=
  match p with
  | EmptyString => Some s
  | String a p' =>
      match s with
      | EmptyString => None
      | String b s' => if Ascii.eqb a b then stripPrefix p' s' else None
      end
  end.

(** One attempt of [\babstract\b] at the position that has [prev] on its
    left and [s] on its right. *)
Definition matchAt (prev : option ascii) (s : string) : bool :=
  wordBoundary prev (head s)
  && match stripPrefix "abstract" s with
     | Some rest => wordBoundary (Some "t"%char) (head rest)
     | None => false
     end.

(** All the matches of the global expression, left to right.  Two matches
    cannot overlap (inside a match both neighbours of every position are
    word characters), so trying every position finds the same matches as
    resuming after the last one. *)
Fixpoint matchAll (prev : option ascii) (s : string) : list string :=
  ((if matchAt prev s then ["abstract"] else [])
   ++ match s with
      | EmptyString => []
      | String c s' => matchAll (Some c) s'
      end)%list.

(** [str.match(/\babstract\b/g)]: the array of the matches, or [null]
    when there is none. *)
Definition String_match (str : string) : option (list string) :=
  match matchAll None str with
  | [] => None
  | m => Some m
  end.

(** Truthiness of the result of [match]: an array is truthy, [null] is
    not. *)
Definition truthy {A : Type} (v : option A) : bool :=
  match v with
  | Some _ => true
  | None => false
  end.

End RegExp.

(** ** Localisation ([vscode-nls]) *)

Module nls.

Inductive Arg : Type :=
| ArgString (s : string)
| ArgNumber (n : nat).

Definition Arg_toString (a : Arg) : string :=
  match a with
  | ArgString s => s
  | ArgNumber n => NilZero.string_of_uint (Nat.to_uint n)
  end.

Definition digitIndex (c : ascii) : option nat :=
  let n := nat_of_ascii c in
  if ((48 <=? n) && (n <=? 57))%nat then Some (n - 48) else None.

(** The argument a placeholder [{d}] stands for, when the text after an
    opening brace is [d}] followed by [rest]. *)
Definition placeholder (afterBrace : string) (args : list Arg) : option Arg :=
  match afterBrace with
  | String d (String close _) =>
      if Ascii.eqb close "}"
      then match digitIndex d with
           | Some i => nth_error args i
           | None => None
           end
      else None
  | _ => None
  end.

(** Substitution of the placeholders [{0}] .. [{9}] of a message by the
    arguments; a placeholder without an argument is left as it is. *)
Fixpoint format (message : string) (args : list Arg) : string :=
  match message with
  | EmptyString => EmptyString
  | String c rest =>
      match (if Ascii.eqb c "{" then placeholder rest args else None), rest with
      | Some a, String _ (String _ rest') => Arg_toString a ++ format rest' args
      | _, _ => String c (format rest args)
      end
  end.

(** [localize(key, message, ...args)] of the default message bundle: the
    message itself, formatted. *)
Definition localize (key message : string) (args : list Arg) : string :=
  format message args.

End nls.

(** ** Promises

    A promise is observed once it has settled.  A callback either returns a
    value or throws; [then_] runs its callback on a fulfilled promise and
    [catch_] on a rejected one, and what the callback throws rejects the
    promise they produce. *)

Module Promise.

Inductive Completion (E A : Type) : Type :=
| Return (value : A)
| Throw (reason : E).
Arguments Return {E A} _.
Arguments Throw {E A} _.

Inductive t (E A : Type) : Type :=
| Fulfilled (value : A)
| Rejected (reason : E).
Arguments Fulfilled {E A} _.
Arguments Rejected {E A} _.

Definition settle {E A : Type} (c : Completion E A) : t E A :=
  match c with
  | Return a => Fulfilled a
  | Throw e => Rejected e
  end.

Definition then_ {E A B : Type} (p : t E A) (onFulfilled : A -> Completion E B) : t E B :=
  match p with
  | Fulfilled a => settle (onFulfilled a)
  | Rejected e => Rejected e
  end.

Definition catch_ {E A : Type} (p : t E A) (onRejected : E -> Completion E A) : t E A :=
  match p with
  | Fulfilled a => Fulfilled a
  | Rejected e => settle (onRejected e)
  end.

End Promise.

Notation "p '.then' f" := (Promise.then_ p f) (at level 50, left associativity).
Notation "p '.catch' f" := (Promise.catch_ p f) (at level 50, left associativity).

(** ** The code lens and the client *)

(** The elements of the command's [arguments] array. *)
Inductive Argument : Type :=
| ArgUri (uri : vscode.Uri)
| ArgPosition (position : vscode.Position)
| ArgLocations (locations : list vscode.Location).

(** [ReferencesCodeLens]: a [vscode.CodeLens] ([range] and the optional
    [command]) with the [document] and the [file] it was made for. *)
Record ReferencesCodeLens : Type :=
  mkReferencesCodeLens {
    document : vscode.Uri;
    file : string;
    range : vscode.Range;
    command : option (vscode.Command Argument)
  }.

(** The assignment [codeLens.command = c]. *)
Definition setCommand (codeLens : ReferencesCodeLens) (c : vscode.Command Argument)
  : ReferencesCodeLens :=
  mkReferencesCodeLens (document codeLens) (file codeLens) (range codeLens) (Some c).

(** What a promise of the provider can be rejected with: the two ways a
    request fails, and the code lens [resolveCodeLens] throws itself. *)
Inductive Reason : Type :=
| Cancelled
| QueryFailed (message : string)
| ThrownCodeLens (codeLens : ReferencesCodeLens).

(** The part of [ITypeScriptServiceClient] the provider uses.  The response
    a request is fulfilled with may itself be missing. *)
Record ITypeScriptServiceClient : Type :=
  mkClient {
    execute : string -> Proto.FileLocationRequestArgs -> vscode.CancellationToken ->
              Promise.t Reason (option Proto.ImplementationResponse);
    asUrl : string -> vscode.Uri
  }.

(** ** The provider *)

Section TypeScriptImplementationsCodeLensProvider.

(** [vscode.TextDocument], and [getSymbolRange] of the base class
    [TypeScriptBaseCodeLensProvider].

    Modelled from the spec: the base class is not part of the sources; the
    spec has it as an injected capability
    [getSymbolRange(document, node) -> Range]. *)
Variable TextDocument : Type.
Variable getSymbolRange : TextDocument -> NavigationTree -> vscode.Range.

(** [this.client]. *)
Variable client : ITypeScriptServiceClient.

(** The callback of [map]: the location shown for one reference. *)
Definition referenceLocation (reference : Proto.FileSpan) : vscode.Location :=
  vscode.mkLocation (asUrl client (Proto.file reference))
    (if (Proto.line (Proto.start reference) =? Proto.line (Proto.end_ reference))%Z
     then typeConverters.Range_fromTextSpan reference
     else vscode.newRange
            (Proto.line (Proto.start reference) - 1) (Proto.offset (Proto.start reference) - 1)
            (Proto.line (Proto.start reference)) 0).

(** The condition the callback of [filter] negates: the location is the
    one of the code lens itself. *)
Definition isOriginal (codeLens : ReferencesCodeLens) (location : vscode.Location) : bool :=
  (vscode.toString (vscode.uri location) =? vscode.toString (document codeLens))%string
  && (vscode.line (vscode.start (vscode.range location))
      =? vscode.line (vscode.start (range codeLens)))%Z
  && (vscode.character (vscode.start (vscode.range location))
      =? vscode.character (vscode.start (range codeLens)))%Z.

(** [const locations = response.body.map(...).filter(...)]. *)
Definition implementationLocations
    (codeLens : ReferencesCodeLens) (body : list Proto.FileSpan) : list vscode.Location :=
  filter (fun location => negb (isOriginal codeLens location))
         (map referenceLocation body).

(** The command of a resolved lens. *)
Definition implementationsCommand
    (codeLens : ReferencesCodeLens) (locations : list vscode.Location)
  : vscode.Command Argument :=
  vscode.mkCommand
    (if (List.length locations =? 1)%nat
     then nls.localize "oneImplementationLabel" "1 implementation" []
     else nls.localize "manyImplementationLabel" "{0} implementations"
            [nls.ArgNumber (List.length locations)])
    (if (List.length locations =? 0)%nat then "" else "editor.action.showReferences")
    (Some [ArgUri (document codeLens);
           ArgPosition (vscode.start (range codeLens));
           ArgLocations locations]).

(** The command of a lens that could not be resolved. *)
Definition errorCommand : vscode.Command Argument :=
  vscode.mkCommand
    (nls.localize "implementationsErrorLabel" "Could not determine implementations" [])
    ""
    None.

Definition resolveCodeLens
    (inputCodeLens : ReferencesCodeLens) (token : vscode.CancellationToken)
  : Promise.t Reason ReferencesCodeLens :=
  let codeLens := inputCodeLens in
  let args := typeConverters.Position_toFileLocationRequestArgs
                (file codeLens) (vscode.start (range codeLens)) in
  (execute client "implementation" args token) .then (fun response =>
    match response with
    | None => Promise.Throw (ThrownCodeLens codeLens)
    | Some r =>
        match Proto.body r with
        | None => Promise.Throw (ThrownCodeLens codeLens)
        | Some body =>
            let locations := implementationLocations codeLens body in
            Promise.Return (setCommand codeLens (implementationsCommand codeLens locations))
        end
    end) .catch (fun _ =>
      Promise.Return (setCommand codeLens errorCommand)).

Definition extractSymbol
    (document : TextDocument) (item : NavigationTree) (_parent : option NavigationTree)
  : option vscode.Range :=
  match kind item with
  | PConst.interface => Some (getSymbolRange document item)
  | PConst.class
  | PConst.memberFunction
  | PConst.memberVariable
  | PConst.memberGetAccessor
  | PConst.memberSetAccessor =>
      if RegExp.truthy (RegExp.String_match (kindModifiers item))
      then Some (getSymbolRange document item)
      else None
  | PConst.other _ => None
  end.

End TypeScriptImplementationsCodeLensProvider.

(** ** A concrete client, for examples *)

Module Sample.

Definition fileUri (path : string) : vscode.Uri := vscode.mkUri ("file://" ++ path).

(** A client that settles every request the same way. *)
Definition clientWith (outcome : Promise.t Reason (option Proto.ImplementationResponse))
  : ITypeScriptServiceClient :=
  mkClient (fun _ _ _ => outcome) fileUri.

Definition answering (body : list Proto.FileSpan) : ITypeScriptServiceClient :=
  clientWith (Promise.Fulfilled (Some (Proto.mkImplementationResponse (Some body)))).

Definition span (path : string) (l1 c1 l2 c2 : Z) : Proto.FileSpan :=
  Proto.mkFileSpan path
    (Proto.mkTextSpan (Proto.mkLocation l1 c1) (Proto.mkLocation l2 c2)).

(** A lens on [/a.ts] at line 2, column 4 (0-based). *)
Definition lens : ReferencesCodeLens :=
  mkReferencesCodeLens (fileUri "/a.ts") "/a.ts" (vscode.newRange 2 4 2 9) None.

Definition token : vscode.CancellationToken := vscode.mkCancellationToken false.

Definition node (k : PConst.Kind) (modifiers : string) : NavigationTree :=
  mkNavigationTree "f" k modifiers [] [].

Definition symbolRange (_ : unit) (_ : NavigationTree) : vscode.Range :=
  vscode.newRange 0 0 0 1.

(** Three hits for [lens]: its own declaration, a declaration of
    [/b.ts] over several lines, and another place of [/a.ts]. *)
Definition hits : list Proto.FileSpan :=
  [span "/a.ts" 3 5 3 10; span "/b.ts" 5 3 8 1; span "/a.ts" 7 1 7 4].

Definition located (path : string) (l1 c1 l2 c2 : Z) : vscode.Location :=
  vscode.mkLocation (fileUri path) (vscode.newRange l1 c1 l2 c2).

End Sample.

(** ** What the specification calls a standalone token *)

(** The last character of [s], or [prev] when [s] is empty. *)
Fixpoint lastOr (prev : option ascii) (s : string) : option ascii :=
  match s with
  | EmptyString => prev
  | String c s' => lastOr (Some c) s'
  end.

(** [modifiers] contains the word [abstract] as a token of its own: an
    occurrence with no word character (letter, digit or underscore) right
    before it and none right after it. *)
Definition standaloneAbstract (modifiers : string) : Prop :=
  exists before after : string,
    modifiers = before ++ "abstract" ++ after
    /\ RegExp.isWordSide (lastOr None before) = false
    /\ RegExp.isWordSide (RegExp.head after) = false.

(** The five kinds whose modifiers are looked at. *)
Definition abstractCheckedKinds : list PConst.Kind :=
  [PConst.class; PConst.memberFunction; PConst.memberVariable;
   PConst.memberGetAccessor; PConst.memberSetAccessor].

(** ** Observations on a resolution *)

(** The request [resolveCodeLens] sends for a code lens. *)
Definition implementationQuery
    (client : ITypeScriptServiceClient) (codeLens : ReferencesCodeLens)
    (token : vscode.CancellationToken)
  : Promise.t Reason (option Proto.ImplementationResponse) :=
  execute client "implementation"
    (typeConverters.Position_toFileLocationRequestArgs
       (file codeLens) (vscode.start (range codeLens)))
    token.

(** The body of a response, absent when the response itself is. *)
Definition bodyOf (response : option Proto.ImplementationResponse)
  : option (list Proto.FileSpan) :=
  match response with
  | Some r => Proto.body r
  | None => None
  end.

(** The ways a resolution fails: the request is rejected (cancelled, or
    failed), or it is fulfilled without a body. *)
Inductive ResolutionFails : Promise.t Reason (option Proto.ImplementationResponse) -> Prop :=
| fails_cancelled : ResolutionFails (Promise.Rejected Cancelled)
| fails_query (message : string) : ResolutionFails (Promise.Rejected (QueryFailed message))
| fails_no_data (response : option Proto.ImplementationResponse) :
    bodyOf response = None -> ResolutionFails (Promise.Fulfilled response).

(** The jump targets a settled resolution carries: the third argument of
    the command of the lens. *)
Definition jumpTargets (result : Promise.t Reason ReferencesCodeLens)
  : option (list vscode.Location) :=
  match result with
  | Promise.Fulfilled lens =>
      match command lens with
      | Some c =>
          match vscode.arguments c with
          | Some [_; _; ArgLocations locations] => Some locations
          | _ => None
          end
      | None => None
      end
  | Promise.Rejected _ => None
  end.

(** The location is the anchor's own: same URI, same start position. *)
Definition isAnchor (codeLens : ReferencesCodeLens) (location : vscode.Location) : Prop :=
  vscode.uri location = document codeLens
  /\ vscode.start (vscode.range location) = vscode.start (range codeLens).

Definition Location_eq_dec (a b : vscode.Location) : {a = b} + {a <> b}.
Proof.
  repeat decide equality; try apply Z.eq_dec; apply string_dec.
Defined.

(** The indices of the elements of [l] that satisfy [keep], in increasing
    order. *)
Fixpoint keptIndices {A : Type} (keep : A -> bool) (l : list A) : list nat :=
  match l with
  | [] => []
  | a :: l' => ((if keep a then [0] else []) ++ map S (keptIndices keep l'))%list
  end.

(** ** Modifier lists *)

(** Every character of [t] is a word character. *)
Fixpoint allWord (t : string) : bool :=
  match t with
  | EmptyString => true
  | String c t' => RegExp.isWordChar c && allWord t'
  end.

(** The modifiers of a node as the service sends them: the modifier names
    with a separator between two of them. *)
Fixpoint join (sep : ascii) (tokens : list string) : string :=
  match tokens with
  | [] => ""
  | t :: ts =>
      match ts with
      | [] => t
      | _ :: _ => t ++ String sep (join sep ts)
      end
  end.

(** What follows the first token of a list in its [join]. *)
Definition joinRest (sep : ascii) (tokens : list string) : string :=
  match tokens with
  | [] => ""
  | _ :: _ => String sep (join sep tokens)
  end.

(** ** Positions and ranges of the editor *)

(** [a.isBeforeOrEqual(b)]: the order of positions, by line and then by
    character. *)
Definition Position_isBeforeOrEqual (a b : vscode.Position) : Prop :=
  (vscode.line a < vscode.line b
   \/ (vscode.line a = vscode.line b /\ vscode.character a <= vscode.character b))%Z.

(** A range the editor takes as it is: no negative coordinate, which its
    positions reject, and a start that is not after the end, which it would
    otherwise swap. *)
Definition validRange (r : vscode.Range) : Prop :=
  (0 <= vscode.line (vscode.start r) /\ 0 <= vscode.character (vscode.start r)
   /\ 0 <= vscode.line (vscode.end_ r) /\ 0 <= vscode.character (vscode.end_ r))%Z
  /\ Position_isBeforeOrEqual (vscode.start r) (vscode.end_ r).

(** A span as the service sends it: 1-based coordinates, the start not
    after the end. *)
Definition wellFormedSpan (span : Proto.TextSpan) : Prop :=
  (1 <= Proto.line (Proto.start span) /\ 1 <= Proto.offset (Proto.start span)
   /\ 1 <= Proto.offset (Proto.end_ span)
   /\ (Proto.line (Proto.start span) < Proto.line (Proto.end_ span)
       \/ (Proto.line (Proto.start span) = Proto.line (Proto.end_ span)
           /\ Proto.offset (Proto.start span) <= Proto.offset (Proto.end_ span))))%Z.

(** ** Configuration *)

(** [vscode.WorkspaceConfiguration], for boolean settings: the value of a
    key, when it is set. *)
Definition WorkspaceConfiguration : Type := string -> option bool.

(** [config.get(key, defaultValue)]. *)
Definition WorkspaceConfiguration_get
    (config : WorkspaceConfiguration) (key : string) (defaultValue : bool) : bool :=
  match config key with
  | Some value => value
  | None => defaultValue
  end.

(** [vscode.workspace.getConfiguration]: the configuration of each
    section. *)
Definition Workspace : Type := string -> WorkspaceConfiguration.

Section Configuration.

(** The state of the base class [TypeScriptBaseCodeLensProvider] and its
    [setEnabled]; the base class is not part of the sources, and [enabled]
    reads the flag [setEnabled] sets. *)
Variable Base : Type.
Variable setEnabled : bool -> Base -> Base.
Variable enabled : Base -> bool.

(** [this.language]. *)
Variable language : string.

Definition updateConfiguration (workspace : Workspace) (this : Base) : Base :=
  let config := workspace language in
  setEnabled (WorkspaceConfiguration_get config "implementationsCodeLens.enabled" false) this.

(** The constructor, on the state [super(...)] leaves: it reads the
    configuration once; the listener it subscribes is [configurationChanged]. *)
Definition construct (workspace : Workspace) (super : Base) : Base :=
  updateConfiguration workspace super.

(** The listener of [onDidChangeConfiguration], run with the workspace as
    it is after the change. *)
Definition configurationChanged (this : Base) (workspace : Workspace) : Base :=
  updateConfiguration workspace this.

(** The provider after its construction and a sequence of configuration
    changes. *)
Definition afterChanges (workspace : Workspace) (super : Base) (changes : list Workspace)
  : Base :=
  fold_left configurationChanged changes (construct workspace super).

End Configuration.

(** Settings for examples: a workspace where only the given section sets
    [implementationsCodeLens.enabled], to the given value. *)
Module SampleSettings.

Definition setting (section : string) (value : bool) : Workspace :=
  fun section' key =>
    if ((section' =? section) && (key =? "implementationsCodeLens.enabled"))%string
    then Some value
    else None.

(** A base class whose state is the flag itself. *)
Definition setFlag (b : bool) (_ : bool) : bool := b.
Definition flag (this : bool) : bool := this.

End SampleSettings.

(** A client that answers the ['implementation'] request with [body] and
    rejects every other request. *)
Module SampleService.

Definition implementationOnly (body : list Proto.FileSpan) : ITypeScriptServiceClient :=
  mkClient
    (fun command _ _ =>
       if (command =? "implementation")%string
       then Promise.Fulfilled (Some (Proto.mkImplementationResponse (Some body)))
       else Promise.Rejected (QueryFailed "unknown command"))
    Sample.fileUri.

End SampleService.

(** * Properties *)

(** ** The regular expression *)

Lemma stripPrefix_spec (p s rest : string) :
  RegExp.stripPrefix p s = Some rest <-> s = p ++ rest.
Proof.
  revert s; induction p as [|a p IH]; intros s; simpl.
  - split; [intros [= ->]; reflexivity | intros ->; reflexivity].
  - destruct s as [|b s]; [split; discriminate|].
    destruct (Ascii.eqb_spec a b) as [<-|Hab].
    + rewrite IH. split; [intros ->; reflexivity | intros [= ->]; reflexivity].
    + split; [discriminate | intros [= Hb _]; congruence].
Qed.

Lemma matchAt_spec (prev : option ascii) (s : string) :
  RegExp.matchAt prev s = true <->
  exists after, s = "abstract" ++ after
                /\ RegExp.isWordSide prev = false
                /\ RegExp.isWordSide (RegExp.head after) = false.
Proof.
  unfold RegExp.matchAt. split.
  - intros H. apply andb_true_iff in H as [Hb Hm].
    destruct (RegExp.stripPrefix "abstract" s) as [rest|] eqn:Hs; [|discriminate].
    apply stripPrefix_spec in Hs. subst s. exists rest.
    split; [reflexivity|]. unfold RegExp.wordBoundary in *. simpl in *.
    change (RegExp.isWordChar "a") with true in Hb.
    change (RegExp.isWordChar "t") with true in Hm.
    split.
    + destruct (RegExp.isWordSide prev); [discriminate | reflexivity].
    + destruct (RegExp.isWordSide (RegExp.head rest)); [discriminate | reflexivity].
  - intros (after & -> & Hp & Ha).
    assert (Hs : RegExp.stripPrefix "abstract" ("abstract" ++ after) = Some after)
      by (apply stripPrefix_spec; reflexivity).
    rewrite Hs. unfold RegExp.wordBoundary. simpl.
    change (RegExp.isWordChar "a") with true.
    change (RegExp.isWordChar "t") with true.
    rewrite Hp, Ha. reflexivity.
Qed.

Lemma matchAll_unfold (prev : option ascii) (s : string) :
  RegExp.matchAll prev s =
  ((if RegExp.matchAt prev s then ["abstract"] else [])
   ++ match s with
      | EmptyString => []
      | String c s' => RegExp.matchAll (Some c) s'
      end)%list.
Proof. destruct s; reflexivity. Qed.

Lemma matchAll_spec (s : string) : forall prev : option ascii,
  RegExp.matchAll prev s <> [] <->
  exists before after,
    s = before ++ "abstract" ++ after
    /\ RegExp.isWordSide (lastOr prev before) = false
    /\ RegExp.isWordSide (RegExp.head after) = false.
Proof.
  induction s as [|c s IH]; intros prev; rewrite matchAll_unfold.
  - split.
    + intros H. destruct (RegExp.matchAt prev "") eqn:Hm; [|contradiction].
      apply matchAt_spec in Hm as (after & Hs & _). discriminate Hs.
    + intros (before & after & Hs & _). destruct before; discriminate Hs.
  - split.
    + intros H. destruct (RegExp.matchAt prev (String c s)) eqn:Hm.
      * apply matchAt_spec in Hm as (after & Hs & Hp & Ha).
        exists "", after. auto.
      * simpl in H. apply IH in H as (before & after & Hs & Hp & Ha).
        exists (String c before), after. subst s. auto.
    + intros (before & after & Hs & Hp & Ha). destruct before as [|b before].
      * assert (Hm : RegExp.matchAt prev (String c s) = true)
          by (apply matchAt_spec; exists after; auto).
        rewrite Hm. discriminate.
      * simpl in Hs. injection Hs as <- ->. simpl in Hp.
        assert (Hn : RegExp.matchAll (Some c) (before ++ "abstract" ++ after) <> [])
          by (apply IH; exists before, after; auto).
        intros Happ. apply app_eq_nil in Happ as [_ Happ]. contradiction.
Qed.

Lemma String_match_truthy (modifiers : string) :
  RegExp.truthy (RegExp.String_match modifiers) = true <-> standaloneAbstract modifiers.
Proof.
  unfold standaloneAbstract. rewrite <- (matchAll_spec modifiers None).
  unfold RegExp.String_match.
  destruct (RegExp.matchAll None modifiers); simpl; split; congruence.
Qed.

Lemma String_match_not_truthy (modifiers : string) :
  RegExp.truthy (RegExp.String_match modifiers) = false <-> ~ standaloneAbstract modifiers.
Proof.
  rewrite <- String_match_truthy.
  destruct (RegExp.truthy (RegExp.String_match modifiers)); split; congruence.
Qed.

(** ** The classifier *)

Section Classifier.

Variable TextDocument : Type.
Variable getSymbolRange : TextDocument -> NavigationTree -> vscode.Range.

Lemma extractSymbol_checked
    (document : TextDocument) (item : NavigationTree) (parent : option NavigationTree) :
  In (kind item) abstractCheckedKinds ->
  extractSymbol TextDocument getSymbolRange document item parent =
  if RegExp.truthy (RegExp.String_match (kindModifiers item))
  then Some (getSymbolRange document item)
  else None.
Proof.
  unfold abstractCheckedKinds, extractSymbol. simpl.
  intros [H|[H|[H|[H|[H|[]]]]]]; rewrite <- H; reflexivity.
Qed.

(** C2: for a node of kind class, member function, member variable, get
    accessor or set accessor, [extractSymbol] returns a range (the one
    [getSymbolRange] gives) exactly when the modifiers contain [abstract]
    as a standalone, word-bounded token, and [null] otherwise; the
    modifiers [abstractfoo] and [fooabstract] give [null]. *)
Theorem extractSymbol_abstract_token
    (document : TextDocument) (item : NavigationTree) (parent : option NavigationTree) :
  In (kind item) abstractCheckedKinds ->
  (extractSymbol TextDocument getSymbolRange document item parent
     = Some (getSymbolRange document item)
   <-> standaloneAbstract (kindModifiers item))
  /\ (extractSymbol TextDocument getSymbolRange document item parent = None
      <-> ~ standaloneAbstract (kindModifiers item))
  /\ (kindModifiers item = "abstractfoo" \/ kindModifiers item = "fooabstract" ->
      extractSymbol TextDocument getSymbolRange document item parent = None).
Proof.
  intros Hk. rewrite (extractSymbol_checked document item parent Hk).
  rewrite <- String_match_not_truthy, <- String_match_truthy.
  split; [|split].
  - destruct (RegExp.truthy _); split; congruence.
  - destruct (RegExp.truthy _); split; congruence.
  - intros [-> | ->]; reflexivity.
Qed.

(** C7: a node of kind interface always gets a range, whatever its
    modifiers; a node whose kind is neither interface nor one of the five
    kinds checked for [abstract] gets [null]. *)
Theorem extractSymbol_interface_and_others
    (document : TextDocument) (item : NavigationTree) (parent : option NavigationTree) :
  (kind item = PConst.interface ->
   extractSymbol TextDocument getSymbolRange document item parent
     = Some (getSymbolRange document item))
  /\ (kind item <> PConst.interface -> ~ In (kind item) abstractCheckedKinds ->
      extractSymbol TextDocument getSymbolRange document item parent = None).
Proof.
  unfold extractSymbol, abstractCheckedKinds. split.
  - intros ->. reflexivity.
  - intros Hi Hn. simpl in Hn.
    destruct (kind item); try reflexivity; solve [congruence | exfalso; tauto].
Qed.

(** C9: the result of [extractSymbol] does not depend on the parent
    node. *)
Theorem extractSymbol_parent_irrelevant
    (document : TextDocument) (item : NavigationTree)
    (parent1 parent2 : option NavigationTree) :
  extractSymbol TextDocument getSymbolRange document item parent1
  = extractSymbol TextDocument getSymbolRange document item parent2.
Proof.
  unfold extractSymbol. destruct (kind item); reflexivity.
Qed.

End Classifier.

Lemma extractSymbol_abstract_token_witness :
  In (kind (Sample.node PConst.memberFunction "abstract,export")) abstractCheckedKinds
  /\ standaloneAbstract "abstract,export"
  /\ ~ standaloneAbstract "export,abstractfoo".
Proof.
  assert (Hk : forall m, In (kind (Sample.node PConst.memberFunction m)) abstractCheckedKinds)
    by (intros m; simpl; auto).
  split; [apply Hk|]. split.
  - destruct (extractSymbol_abstract_token unit Sample.symbolRange tt
                (Sample.node PConst.memberFunction "abstract,export") None
                (Hk "abstract,export")) as (Hsome & _ & _).
    apply Hsome. reflexivity.
  - destruct (extractSymbol_abstract_token unit Sample.symbolRange tt
                (Sample.node PConst.memberFunction "export,abstractfoo") None
                (Hk "export,abstractfoo")) as (_ & Hnone & _).
    apply Hnone. reflexivity.
Defined.

Lemma extractSymbol_interface_and_others_witness :
  extractSymbol unit Sample.symbolRange tt (Sample.node PConst.interface "") None
  = Some (vscode.newRange 0 0 0 1)
  /\ extractSymbol unit Sample.symbolRange tt
       (Sample.node (PConst.other "function") "abstract") None = None.
Proof.
  split.
  - apply (extractSymbol_interface_and_others unit Sample.symbolRange tt
             (Sample.node PConst.interface "") None). reflexivity.
  - apply (extractSymbol_interface_and_others unit Sample.symbolRange tt
             (Sample.node (PConst.other "function") "abstract") None).
    + discriminate.
    + simpl. intros [H|[H|[H|[H|[H|[]]]]]]; discriminate H.
Defined.

(** ** Lists: filtering keeps order and multiplicity *)

Lemma StronglySorted_map_S (l : list nat) :
  StronglySorted lt l -> StronglySorted lt (map S l).
Proof.
  induction 1 as [|i l Hs IH Hall]; simpl; constructor; [assumption|].
  rewrite Forall_forall in *. intros j Hj.
  apply in_map_iff in Hj as (k & <- & Hk). apply Hall in Hk. lia.
Qed.

Lemma keptIndices_sorted {A : Type} (keep : A -> bool) (l : list A) :
  StronglySorted lt (keptIndices keep l).
Proof.
  induction l as [|a l IH]; simpl; [constructor|].
  apply StronglySorted_map_S in IH.
  destruct (keep a); simpl; [|assumption].
  constructor; [assumption|].
  apply Forall_forall. intros j Hj.
  apply in_map_iff in Hj as (k & <- & _). lia.
Qed.

Lemma keptIndices_nth {A : Type} (keep : A -> bool) (l : list A) :
  map (nth_error l) (keptIndices keep l) = map Some (filter keep l).
Proof.
  induction l as [|a l IH]; simpl; [reflexivity|].
  rewrite map_app, map_map. simpl.
  change (map (fun i => nth_error l i) (keptIndices keep l))
    with (map (nth_error l) (keptIndices keep l)).
  rewrite IH. destruct (keep a); reflexivity.
Qed.

Lemma keptIndices_In {A : Type} (keep : A -> bool) (l : list A) : forall i : nat,
  In i (keptIndices keep l) <-> exists a, nth_error l i = Some a /\ keep a = true.
Proof.
  induction l as [|a l IH]; intros i; simpl.
  - split; [contradiction|]. intros (x & Hx & _). destruct i; discriminate Hx.
  - rewrite in_app_iff, in_map_iff. split.
    + intros [Hi|(j & <- & Hj)].
      * destruct (keep a) eqn:Hk; [|contradiction].
        destruct Hi as [<-|[]]. exists a. auto.
      * apply IH in Hj. exact Hj.
    + intros (x & Hx & Hk). destruct i as [|i]; simpl in Hx.
      * injection Hx as ->. rewrite Hk. left. left. reflexivity.
      * right. exists i. split; [reflexivity|]. apply IH. exists x. auto.
Qed.

Lemma count_occ_filter {A : Type} (dec : forall a b : A, {a = b} + {a <> b})
    (keep : A -> bool) (l : list A) (x : A) :
  count_occ dec (filter keep l) x = if keep x then count_occ dec l x else 0.
Proof.
  induction l as [|a l IH]; simpl; [destruct (keep x); reflexivity|].
  destruct (keep a) eqn:Ha; simpl; destruct (dec a x) as [->|Hne]; rewrite IH.
  - rewrite Ha. reflexivity.
  - reflexivity.
  - rewrite Ha. reflexivity.
  - reflexivity.
Qed.

(** ** Ranges *)

(** Given its start first, the constructor keeps the two positions as they
    are. *)
Lemma newRange_ordered (startLine startCharacter endLine endCharacter : Z) :
  (startLine < endLine \/ (startLine = endLine /\ startCharacter <= endCharacter))%Z ->
  vscode.newRange startLine startCharacter endLine endCharacter
  = vscode.mkRange (vscode.mkPosition startLine startCharacter)
                   (vscode.mkPosition endLine endCharacter).
Proof.
  intros Hord. unfold vscode.newRange, vscode.Position_isBefore. simpl.
  destruct ((startLine <? endLine)%Z
            || ((startLine =? endLine)%Z && (startCharacter <? endCharacter)%Z)) eqn:Hb;
    [reflexivity|].
  apply orb_false_iff in Hb as [Hlt Hb]. apply Z.ltb_ge in Hlt.
  apply andb_false_iff in Hb.
  assert (Hl : startLine = endLine) by lia. subst endLine.
  assert (Hc : startCharacter = endCharacter).
  { destruct Hb as [Hb|Hb]; [apply Z.eqb_neq in Hb; lia | apply Z.ltb_ge in Hb; lia]. }
  subst endCharacter. reflexivity.
Qed.

Section Ranges.

Variable client : ITypeScriptServiceClient.

(** The range shown for a well-formed hit, by coordinates. *)
Lemma referenceLocation_wellFormed (reference : Proto.FileSpan) :
  wellFormedSpan reference ->
  vscode.range (referenceLocation client reference)
  = vscode.mkRange
      (vscode.mkPosition (Proto.line (Proto.start reference) - 1)
                         (Proto.offset (Proto.start reference) - 1))
      (if (Proto.line (Proto.start reference) =? Proto.line (Proto.end_ reference))%Z
       then vscode.mkPosition (Proto.line (Proto.end_ reference) - 1)
                              (Proto.offset (Proto.end_ reference) - 1)
       else vscode.mkPosition (Proto.line (Proto.start reference)) 0).
Proof.
  unfold wellFormedSpan, referenceLocation, typeConverters.Range_fromTextSpan.
  intros (Hl & Ho & He & Hord). simpl.
  destruct (Z.eqb_spec (Proto.line (Proto.start reference))
                       (Proto.line (Proto.end_ reference))) as [Heq|Hne];
    apply newRange_ordered; lia.
Qed.

End Ranges.

(** ** The resolver *)

Section Resolver.

Variable client : ITypeScriptServiceClient.
Variable codeLens : ReferencesCodeLens.
Variable token : vscode.CancellationToken.

Lemma resolveCodeLens_unfold :
  resolveCodeLens client codeLens token =
  match implementationQuery client codeLens token with
  | Promise.Fulfilled response =>
      match bodyOf response with
      | Some body =>
          Promise.Fulfilled
            (setCommand codeLens
               (implementationsCommand codeLens
                  (implementationLocations client codeLens body)))
      | None => Promise.Fulfilled (setCommand codeLens errorCommand)
      end
  | Promise.Rejected _ => Promise.Fulfilled (setCommand codeLens errorCommand)
  end.
Proof.
  unfold resolveCodeLens, implementationQuery.
  destruct (execute client _ _ _) as [[r|]|reason]; simpl; try reflexivity.
  destruct (Proto.body r); reflexivity.
Qed.

Lemma resolveCodeLens_body (response : option Proto.ImplementationResponse)
    (body : list Proto.FileSpan) :
  implementationQuery client codeLens token = Promise.Fulfilled response ->
  bodyOf response = Some body ->
  resolveCodeLens client codeLens token =
  Promise.Fulfilled
    (setCommand codeLens
       (implementationsCommand codeLens (implementationLocations client codeLens body))).
Proof.
  intros Hq Hb. rewrite resolveCodeLens_unfold, Hq, Hb. reflexivity.
Qed.

Lemma jumpTargets_body (response : option Proto.ImplementationResponse)
    (body : list Proto.FileSpan) :
  implementationQuery client codeLens token = Promise.Fulfilled response ->
  bodyOf response = Some body ->
  jumpTargets (resolveCodeLens client codeLens token)
  = Some (implementationLocations client codeLens body).
Proof.
  intros Hq Hb. rewrite (resolveCodeLens_body response body Hq Hb). reflexivity.
Qed.

Lemma isOriginal_spec (location : vscode.Location) :
  isOriginal codeLens location = true <-> isAnchor codeLens location.
Proof.
  unfold isOriginal, isAnchor.
  rewrite !andb_true_iff, String.eqb_eq, !Z.eqb_eq.
  destruct location as [[u] [[l c] e]].
  destruct codeLens as [[d] f [[l' c'] e'] cmd]. simpl.
  split.
  - intros [[-> ->] ->]. auto.
  - intros [[= ->] [= -> ->]]. auto.
Qed.

Lemma isOriginal_false (location : vscode.Location) :
  isOriginal codeLens location = false <-> ~ isAnchor codeLens location.
Proof.
  rewrite <- isOriginal_spec. destruct (isOriginal codeLens location); split; congruence.
Qed.

(** C6: when the request is cancelled, fails, or is answered without a
    body, the promise of [resolveCodeLens] is fulfilled with the lens
    carrying the title [Could not determine implementations] and the empty
    command, the same in the three cases; and whatever the request does, the
    promise is fulfilled, never rejected. *)
Theorem resolveCodeLens_failure :
  (exists result, resolveCodeLens client codeLens token = Promise.Fulfilled result)
  /\ (ResolutionFails (implementationQuery client codeLens token) ->
      resolveCodeLens client codeLens token =
      Promise.Fulfilled
        {| document := document codeLens;
           file := file codeLens;
           range := range codeLens;
           command :=
             Some {| vscode.title := "Could not determine implementations";
                     vscode.command := "";
                     vscode.arguments := None |} |}).
Proof.
  rewrite resolveCodeLens_unfold. split.
  - destruct (implementationQuery client codeLens token) as [response|reason];
      [destruct (bodyOf response)|]; eexists; reflexivity.
  - intros Hf. inversion Hf as [Hq|message Hq|response Hb Hq]; try reflexivity.
    rewrite Hb. reflexivity.
Qed.

(** C1 (amended): when the request is fulfilled and the response or its
    body is absent, the lens gets the failure title and the empty command;
    when the body is present and empty, the resolution succeeds with the
    title [0 implementations], the empty command and no target. *)
Theorem resolveCodeLens_absent_or_empty_body
    (response : option Proto.ImplementationResponse) :
  implementationQuery client codeLens token = Promise.Fulfilled response ->
  (bodyOf response = None ->
   resolveCodeLens client codeLens token =
   Promise.Fulfilled
     (setCommand codeLens
        (vscode.mkCommand "Could not determine implementations" "" None)))
  /\ (bodyOf response = Some [] ->
      resolveCodeLens client codeLens token =
      Promise.Fulfilled
        (setCommand codeLens
           (vscode.mkCommand "0 implementations" ""
              (Some [ArgUri (document codeLens);
                     ArgPosition (vscode.start (range codeLens));
                     ArgLocations []])))).
Proof.
  intros Hq. rewrite resolveCodeLens_unfold, Hq.
  split; intros Hb; rewrite Hb; reflexivity.
Qed.

(** C5: with [N] targets left, the title is [1 implementation] when
    [N = 1] and [N implementations], [N] in decimal, otherwise ([N = 0]
    included); the command is [editor.action.showReferences] with the
    document, the start of the lens and the targets when [N >= 1], and the
    empty command when [N = 0]. *)
Theorem resolveCodeLens_label_and_command
    (response : option Proto.ImplementationResponse) (body : list Proto.FileSpan) :
  implementationQuery client codeLens token = Promise.Fulfilled response ->
  bodyOf response = Some body ->
  let targets := implementationLocations client codeLens body in
  let N := List.length targets in
  exists c : vscode.Command Argument,
    resolveCodeLens client codeLens token =
    Promise.Fulfilled
      {| document := document codeLens;
         file := file codeLens;
         range := range codeLens;
         command := Some c |}
    /\ (N = 1 -> vscode.title c = "1 implementation")
    /\ (N <> 1 ->
        vscode.title c = nls.Arg_toString (nls.ArgNumber N) ++ " implementations")
    /\ (N = 0 -> vscode.title c = "0 implementations" /\ vscode.command c = "")
    /\ (N >= 1 ->
        vscode.command c = "editor.action.showReferences"
        /\ vscode.arguments c = Some [ArgUri (document codeLens);
                                      ArgPosition (vscode.start (range codeLens));
                                      ArgLocations targets]).
Proof.
  intros Hq Hb targets N.
  exists (implementationsCommand codeLens targets).
  split; [apply (resolveCodeLens_body response body Hq Hb)|].
  unfold implementationsCommand. fold N. simpl. clearbody N.
  split; [|split; [|split]].
  - intros ->. reflexivity.
  - intros Hn. apply Nat.eqb_neq in Hn. rewrite Hn. reflexivity.
  - intros ->. split; reflexivity.
  - intros Hn. destruct N; [lia | split; reflexivity].
Qed.

(** C3: the range shown for a hit, for the spans the service sends
    (1-based coordinates, the start not after the end).  When the hit starts
    and ends on the same line it is the hit's own range, every coordinate
    made 0-based; otherwise it runs from (start line - 1, start column - 1)
    to (start line, 0), so that a hit from line 5, column 3 to line 8,
    column 1 is shown as (4, 2) to (5, 0).  Every target of a resolved lens
    is the location computed this way for one of the hits of the body. *)
Theorem referenceLocation_range :
  (forall reference : Proto.FileSpan,
     wellFormedSpan reference ->
     let start := Proto.start reference in
     let end_ := Proto.end_ reference in
     let shown := vscode.range (referenceLocation client reference) in
     (Proto.line start = Proto.line end_ ->
      shown = {| vscode.start := {| vscode.line := Proto.line start - 1;
                                    vscode.character := Proto.offset start - 1 |};
                 vscode.end_ := {| vscode.line := Proto.line end_ - 1;
                                   vscode.character := Proto.offset end_ - 1 |} |})
     /\ (Proto.line start <> Proto.line end_ ->
         shown = {| vscode.start := {| vscode.line := Proto.line start - 1;
                                       vscode.character := Proto.offset start - 1 |};
                    vscode.end_ := {| vscode.line := Proto.line start;
                                      vscode.character := 0 |} |}))
  /\ (forall reference : Proto.FileSpan,
        Proto.start reference = Proto.mkLocation 5 3 ->
        Proto.end_ reference = Proto.mkLocation 8 1 ->
        vscode.range (referenceLocation client reference)
        = {| vscode.start := {| vscode.line := 4; vscode.character := 2 |};
             vscode.end_ := {| vscode.line := 5; vscode.character := 0 |} |})
  /\ (forall response body targets,
        implementationQuery client codeLens token = Promise.Fulfilled response ->
        bodyOf response = Some body ->
        jumpTargets (resolveCodeLens client codeLens token) = Some targets ->
        forall target, In target targets ->
          exists hit, In hit body /\ target = referenceLocation client hit).
Proof.
  split; [|split].
  - intros reference Hw start end_ shown. subst shown start end_.
    rewrite (referenceLocation_wellFormed client reference Hw). split.
    + intros H. apply Z.eqb_eq in H. rewrite H. reflexivity.
    + intros H. apply Z.eqb_neq in H. rewrite H. reflexivity.
  - intros reference Hs He. unfold referenceLocation. rewrite Hs, He. reflexivity.
  - intros response body targets Hq Hb Ht target Hin.
    rewrite (jumpTargets_body response body Hq Hb) in Ht. injection Ht as <-.
    unfold implementationLocations in Hin.
    apply filter_In in Hin as [Hin _].
    apply in_map_iff in Hin as (hit & <- & Hhit).
    exists hit. auto.
Qed.

(** C4: the targets of a resolved lens are the locations of the hits
    except those that are the anchor's own (same URI, same start line and
    column); nothing else is removed, so a hit in the same file at another
    start position stays. *)
Theorem resolveCodeLens_self_exclusion
    (response : option Proto.ImplementationResponse) (body : list Proto.FileSpan) :
  implementationQuery client codeLens token = Promise.Fulfilled response ->
  bodyOf response = Some body ->
  exists targets,
    jumpTargets (resolveCodeLens client codeLens token) = Some targets
    /\ forall location,
         In location targets <->
         In location (map (referenceLocation client) body)
         /\ ~ isAnchor codeLens location.
Proof.
  intros Hq Hb. eexists. split; [apply (jumpTargets_body response body Hq Hb)|].
  intros location. unfold implementationLocations.
  rewrite filter_In, negb_true_iff, isOriginal_false. reflexivity.
Qed.

(** C8 (amended): the targets are not deduplicated.  A location that is
    not the anchor's own occurs among the targets as many times as among
    the locations of the hits, and the anchor's own location does not occur
    at all. *)
Theorem resolveCodeLens_keeps_multiplicity
    (response : option Proto.ImplementationResponse) (body : list Proto.FileSpan) :
  implementationQuery client codeLens token = Promise.Fulfilled response ->
  bodyOf response = Some body ->
  exists targets,
    jumpTargets (resolveCodeLens client codeLens token) = Some targets
    /\ forall location,
         (isAnchor codeLens location ->
          count_occ Location_eq_dec targets location = 0)
         /\ (~ isAnchor codeLens location ->
             count_occ Location_eq_dec targets location
             = count_occ Location_eq_dec (map (referenceLocation client) body) location).
Proof.
  intros Hq Hb. eexists. split; [apply (jumpTargets_body response body Hq Hb)|].
  intros location. unfold implementationLocations. rewrite count_occ_filter.
  split; intros H.
  - apply isOriginal_spec in H. rewrite H. reflexivity.
  - apply isOriginal_false in H. rewrite H. reflexivity.
Qed.

(** C10: the targets keep the order of the response.  They are the
    locations of the hits at a strictly increasing sequence of indices of
    the body, namely the indices of the hits whose location is not the
    anchor's own. *)
Theorem resolveCodeLens_keeps_order
    (response : option Proto.ImplementationResponse) (body : list Proto.FileSpan) :
  implementationQuery client codeLens token = Promise.Fulfilled response ->
  bodyOf response = Some body ->
  exists (targets : list vscode.Location) (indices : list nat),
    jumpTargets (resolveCodeLens client codeLens token) = Some targets
    /\ StronglySorted lt indices
    /\ map (fun i => option_map (referenceLocation client) (nth_error body i)) indices
       = map Some targets
    /\ forall i,
         In i indices <->
         exists hit, nth_error body i = Some hit
                     /\ ~ isAnchor codeLens (referenceLocation client hit).
Proof.
  intros Hq Hb.
  set (keep := fun location => negb (isOriginal codeLens location)).
  exists (implementationLocations client codeLens body),
         (keptIndices keep (map (referenceLocation client) body)).
  split; [apply (jumpTargets_body response body Hq Hb)|].
  split; [apply keptIndices_sorted|]. split.
  - unfold implementationLocations. fold keep. rewrite <- keptIndices_nth.
    apply map_ext. intros i. symmetry. apply nth_error_map.
  - intros i. rewrite keptIndices_In. split.
    + intros (location & Hn & Hk). rewrite nth_error_map in Hn.
      destruct (nth_error body i) as [hit|]; [|discriminate].
      injection Hn as <-. exists hit. split; [reflexivity|].
      apply isOriginal_false, negb_true_iff, Hk.
    + intros (hit & Hn & Hk). exists (referenceLocation client hit).
      rewrite nth_error_map, Hn. split; [reflexivity|].
      apply negb_true_iff, isOriginal_false, Hk.
Qed.

End Resolver.

(** ** The theorems at concrete requests *)

Lemma resolveCodeLens_failure_witness :
  ResolutionFails
    (implementationQuery (Sample.clientWith (Promise.Rejected Cancelled))
       Sample.lens Sample.token)
  /\ resolveCodeLens (Sample.clientWith (Promise.Rejected Cancelled)) Sample.lens Sample.token
     = Promise.Fulfilled
         {| document := Sample.fileUri "/a.ts";
            file := "/a.ts";
            range := {| vscode.start := {| vscode.line := 2; vscode.character := 4 |};
                        vscode.end_ := {| vscode.line := 2; vscode.character := 9 |} |};
            command :=
              Some {| vscode.title := "Could not determine implementations";
                      vscode.command := "";
                      vscode.arguments := None |} |}.
Proof.
  assert (Hf : ResolutionFails
                 (implementationQuery (Sample.clientWith (Promise.Rejected Cancelled))
                    Sample.lens Sample.token)) by constructor.
  split; [exact Hf|].
  destruct (resolveCodeLens_failure (Sample.clientWith (Promise.Rejected Cancelled))
              Sample.lens Sample.token) as [_ H].
  exact (H Hf).
Defined.

(** C1, as stated, fails: a request fulfilled with an empty body resolves to
    [0 implementations], not to the failure title. *)
Lemma empty_body_resolves_to_zero_implementations :
  implementationQuery (Sample.answering []) Sample.lens Sample.token
  = Promise.Fulfilled (Some (Proto.mkImplementationResponse (Some [])))
  /\ resolveCodeLens (Sample.answering []) Sample.lens Sample.token
     = Promise.Fulfilled
         (setCommand Sample.lens
            (vscode.mkCommand "0 implementations" ""
               (Some [ArgUri (Sample.fileUri "/a.ts");
                      ArgPosition (vscode.mkPosition 2 4);
                      ArgLocations []])))
  /\ resolveCodeLens (Sample.answering []) Sample.lens Sample.token
     <> Promise.Fulfilled
          (setCommand Sample.lens
             (vscode.mkCommand "Could not determine implementations" "" None)).
Proof.
  split; [reflexivity|]. split; [reflexivity|]. discriminate.
Qed.

Lemma resolveCodeLens_absent_or_empty_body_witness :
  implementationQuery
    (Sample.clientWith (Promise.Fulfilled (Some (Proto.mkImplementationResponse None))))
    Sample.lens Sample.token
  = Promise.Fulfilled (Some (Proto.mkImplementationResponse None))
  /\ resolveCodeLens
       (Sample.clientWith (Promise.Fulfilled (Some (Proto.mkImplementationResponse None))))
       Sample.lens Sample.token
     = Promise.Fulfilled
         (setCommand Sample.lens
            (vscode.mkCommand "Could not determine implementations" "" None)).
Proof.
  split; [reflexivity|].
  destruct (resolveCodeLens_absent_or_empty_body
              (Sample.clientWith
                 (Promise.Fulfilled (Some (Proto.mkImplementationResponse None))))
              Sample.lens Sample.token
              (Some (Proto.mkImplementationResponse None)) eq_refl) as [H _].
  apply H. reflexivity.
Defined.

Lemma resolveCodeLens_label_and_command_witness :
  exists c : vscode.Command Argument,
    resolveCodeLens (Sample.answering Sample.hits) Sample.lens Sample.token
    = Promise.Fulfilled
        {| document := Sample.fileUri "/a.ts";
           file := "/a.ts";
           range := {| vscode.start := {| vscode.line := 2; vscode.character := 4 |};
                       vscode.end_ := {| vscode.line := 2; vscode.character := 9 |} |};
           command := Some c |}
    /\ vscode.title c = "2 implementations"
    /\ vscode.command c = "editor.action.showReferences"
    /\ vscode.arguments c
       = Some [ArgUri (Sample.fileUri "/a.ts");
               ArgPosition (vscode.mkPosition 2 4);
               ArgLocations [Sample.located "/b.ts" 4 2 5 0;
                             Sample.located "/a.ts" 6 0 6 3]].
Proof.
  destruct (resolveCodeLens_label_and_command (Sample.answering Sample.hits)
              Sample.lens Sample.token
              (Some (Proto.mkImplementationResponse (Some Sample.hits))) Sample.hits
              eq_refl eq_refl) as (c & Hr & _ & Hmany & _ & Hsome).
  exists c. split; [exact Hr|].
  split; [apply Hmany; discriminate|].
  apply Hsome. vm_compute. lia.
Defined.

Lemma referenceLocation_range_witness :
  wellFormedSpan (Sample.span "/b.ts" 5 3 8 1)
  /\ wellFormedSpan (Sample.span "/a.ts" 7 1 7 4)
  /\ vscode.range (referenceLocation (Sample.answering Sample.hits)
                     (Sample.span "/b.ts" 5 3 8 1))
     = {| vscode.start := {| vscode.line := 4; vscode.character := 2 |};
          vscode.end_ := {| vscode.line := 5; vscode.character := 0 |} |}
  /\ vscode.range (referenceLocation (Sample.answering Sample.hits)
                     (Sample.span "/a.ts" 7 1 7 4))
     = {| vscode.start := {| vscode.line := 6; vscode.character := 0 |};
          vscode.end_ := {| vscode.line := 6; vscode.character := 3 |} |}.
Proof.
  assert (Hmany : wellFormedSpan (Sample.span "/b.ts" 5 3 8 1))
    by (unfold wellFormedSpan; simpl; lia).
  assert (Hone : wellFormedSpan (Sample.span "/a.ts" 7 1 7 4))
    by (unfold wellFormedSpan; simpl; lia).
  destruct (referenceLocation_range (Sample.answering Sample.hits) Sample.lens Sample.token)
    as (Hrange & _ & _).
  split; [exact Hmany|]. split; [exact Hone|]. split.
  - destruct (Hrange (Sample.span "/b.ts" 5 3 8 1) Hmany) as [_ H].
    apply H. discriminate.
  - destruct (Hrange (Sample.span "/a.ts" 7 1 7 4) Hone) as [H _].
    apply H. reflexivity.
Defined.

Lemma resolveCodeLens_self_exclusion_witness :
  exists targets,
    jumpTargets (resolveCodeLens (Sample.answering Sample.hits) Sample.lens Sample.token)
    = Some targets
    /\ ~ In (Sample.located "/a.ts" 2 4 2 9) targets
    /\ In (Sample.located "/a.ts" 6 0 6 3) targets.
Proof.
  destruct (resolveCodeLens_self_exclusion (Sample.answering Sample.hits)
              Sample.lens Sample.token
              (Some (Proto.mkImplementationResponse (Some Sample.hits))) Sample.hits
              eq_refl eq_refl) as (targets & Ht & Hin).
  exists targets. split; [exact Ht|]. split.
  - intros H. apply Hin in H as [_ Hn]. apply Hn. split; reflexivity.
  - apply Hin. split.
    + simpl. right. right. left. reflexivity.
    + intros [_ H]. discriminate H.
Defined.

(** C8, as stated, fails: a hit the service reports twice is a target
    twice. *)
Lemma duplicate_hits_give_duplicate_targets :
  jumpTargets
    (resolveCodeLens
       (Sample.answering [Sample.span "/b.ts" 5 3 5 8; Sample.span "/b.ts" 5 3 5 8])
       Sample.lens Sample.token)
  = Some [Sample.located "/b.ts" 4 2 4 7; Sample.located "/b.ts" 4 2 4 7]
  /\ ~ NoDup [Sample.located "/b.ts" 4 2 4 7; Sample.located "/b.ts" 4 2 4 7].
Proof.
  split; [reflexivity|].
  intros H. inversion H as [|x l Hx Hl]. apply Hx. left. reflexivity.
Qed.

Lemma resolveCodeLens_keeps_multiplicity_witness :
  exists targets,
    jumpTargets
      (resolveCodeLens
         (Sample.answering [Sample.span "/b.ts" 5 3 5 8; Sample.span "/b.ts" 5 3 5 8])
         Sample.lens Sample.token)
    = Some targets
    /\ count_occ Location_eq_dec targets (Sample.located "/b.ts" 4 2 4 7) = 2.
Proof.
  destruct (resolveCodeLens_keeps_multiplicity
              (Sample.answering [Sample.span "/b.ts" 5 3 5 8; Sample.span "/b.ts" 5 3 5 8])
              Sample.lens Sample.token
              (Some (Proto.mkImplementationResponse
                       (Some [Sample.span "/b.ts" 5 3 5 8; Sample.span "/b.ts" 5 3 5 8])))
              [Sample.span "/b.ts" 5 3 5 8; Sample.span "/b.ts" 5 3 5 8]
              eq_refl eq_refl) as (targets & Ht & Hc).
  exists targets. split; [exact Ht|].
  destruct (Hc (Sample.located "/b.ts" 4 2 4 7)) as [_ Hkept].
  rewrite Hkept; [reflexivity|]. intros [H _]. discriminate H.
Defined.

Lemma resolveCodeLens_keeps_order_witness :
  exists (targets : list vscode.Location) (indices : list nat),
    jumpTargets (resolveCodeLens (Sample.answering Sample.hits) Sample.lens Sample.token)
    = Some targets
    /\ StronglySorted lt indices
    /\ map (fun i => option_map (referenceLocation (Sample.answering Sample.hits))
                       (nth_error Sample.hits i)) indices
       = map Some targets
    /\ ~ In 0 indices /\ In 1 indices /\ In 2 indices.
Proof.
  destruct (resolveCodeLens_keeps_order (Sample.answering Sample.hits)
              Sample.lens Sample.token
              (Some (Proto.mkImplementationResponse (Some Sample.hits))) Sample.hits
              eq_refl eq_refl) as (targets & indices & Ht & Hs & Hm & Hi).
  exists targets, indices. repeat (split; [assumption|]).
  split; [|split].
  - intros H. apply Hi in H as (hit & Hn & Hk). injection Hn as <-.
    apply Hk. split; reflexivity.
  - apply Hi. eexists. split; [reflexivity|]. intros [H _]. discriminate H.
  - apply Hi. eexists. split; [reflexivity|]. intros [_ H]. discriminate H.
Defined.

(** * Further properties *)

(** ** Filtering *)

Lemma filter_nil_iff {A : Type} (keep : A -> bool) (l : list A) :
  filter keep l = [] <-> forall x, In x l -> keep x = false.
Proof.
  induction l as [|a l IH]; simpl.
  - split; [intros _ x [] | reflexivity].
  - destruct (keep a) eqn:Ha.
    + split; [discriminate|]. intros H. rewrite (H a) in Ha by auto. discriminate.
    + rewrite IH. split.
      * intros H x [<-|Hx]; auto.
      * intros H x Hx. apply H. auto.
Qed.

Lemma filter_length_bound {A : Type} (keep : A -> bool) (l : list A) :
  List.length (filter keep l) <= List.length l.
Proof.
  induction l as [|a l IH]; simpl; [lia|]. destruct (keep a); simpl; lia.
Qed.

Lemma filter_length_all {A : Type} (keep : A -> bool) (l : list A) :
  List.length (filter keep l) = List.length l <-> forall x, In x l -> keep x = true.
Proof.
  induction l as [|a l IH]; simpl.
  - split; [intros _ x [] | reflexivity].
  - pose proof (filter_length_bound keep l) as Hle.
    destruct (keep a) eqn:Ha; simpl.
    + split.
      * intros H x [<-|Hx]; [assumption|]. apply IH; [lia | assumption].
      * intros H. f_equal. apply IH. intros x Hx. apply H. auto.
    + split; [lia|]. intros H. rewrite (H a) in Ha by auto. discriminate.
Qed.

(** ** The decimal form of a count *)

Lemma decimal_not_capital (n : nat) (suffix rest : string) :
  nls.Arg_toString (nls.ArgNumber n) ++ suffix <> String "C" rest.
Proof.
  simpl. destruct (Nat.to_uint n); simpl; discriminate.
Qed.

(** ** The resolver, further *)

Section ResolverFurther.

Variable client : ITypeScriptServiceClient.
Variable codeLens : ReferencesCodeLens.
Variable token : vscode.CancellationToken.

Lemma resolveCodeLens_same_anchor (other : ReferencesCodeLens) :
  document other = document codeLens ->
  file other = file codeLens ->
  range other = range codeLens ->
  resolveCodeLens client other token = resolveCodeLens client codeLens token.
Proof.
  rewrite !resolveCodeLens_unfold.
  destruct other as [d f r c], codeLens as [d' f' r' c']. simpl.
  intros -> -> ->. reflexivity.
Qed.

Lemma resolveCodeLens_sets_command :
  exists c,
    resolveCodeLens client codeLens token =
    Promise.Fulfilled
      (mkReferencesCodeLens (document codeLens) (file codeLens) (range codeLens) (Some c)).
Proof.
  rewrite resolveCodeLens_unfold.
  destruct (implementationQuery client codeLens token) as [response|reason];
    [destruct (bodyOf response)|]; eexists; reflexivity.
Qed.

(** X2: whatever the request does, the lens [resolveCodeLens] gives back
    is the input lens with a command: its document, file and range are the
    ones of the input, and the command it had before plays no role. *)
Theorem resolveCodeLens_only_sets_command :
  (exists c,
     resolveCodeLens client codeLens token =
     Promise.Fulfilled
       (mkReferencesCodeLens (document codeLens) (file codeLens) (range codeLens) (Some c)))
  /\ (forall previous,
        resolveCodeLens client
          (mkReferencesCodeLens (document codeLens) (file codeLens) (range codeLens) previous)
          token
        = resolveCodeLens client codeLens token).
Proof.
  split.
  - apply resolveCodeLens_sets_command.
  - intros previous. apply resolveCodeLens_same_anchor; reflexivity.
Qed.

(** X3: resolving is idempotent: resolving the lens a resolution gave, with
    the service answering the same, gives that lens again. *)
Theorem resolveCodeLens_idempotent (result : ReferencesCodeLens) :
  resolveCodeLens client codeLens token = Promise.Fulfilled result ->
  resolveCodeLens client result token = Promise.Fulfilled result.
Proof.
  intros Hr. destruct resolveCodeLens_sets_command as (c & Hc).
  rewrite Hc in Hr. injection Hr as <-.
  rewrite <- Hc. apply resolveCodeLens_same_anchor; reflexivity.
Qed.

(** X4: the targets are never more than the hits of the body; there is
    none exactly when every hit is at the anchor's own location, and as many
    as hits exactly when no hit is. *)
Theorem resolveCodeLens_target_count
    (response : option Proto.ImplementationResponse) (body : list Proto.FileSpan) :
  implementationQuery client codeLens token = Promise.Fulfilled response ->
  bodyOf response = Some body ->
  exists targets,
    jumpTargets (resolveCodeLens client codeLens token) = Some targets
    /\ List.length targets <= List.length body
    /\ (targets = [] <->
        forall hit, In hit body -> isAnchor codeLens (referenceLocation client hit))
    /\ (List.length targets = List.length body <->
        forall hit, In hit body -> ~ isAnchor codeLens (referenceLocation client hit)).
Proof.
  intros Hq Hb. eexists. split; [apply (jumpTargets_body _ _ _ response body Hq Hb)|].
  unfold implementationLocations. split; [|split].
  - rewrite <- (length_map (referenceLocation client) body). apply filter_length_bound.
  - rewrite filter_nil_iff. split.
    + intros H hit Hin. apply (isOriginal_spec codeLens), negb_false_iff, H.
      apply in_map. exact Hin.
    + intros H location Hin. apply in_map_iff in Hin as (hit & <- & Hin).
      apply negb_false_iff, (isOriginal_spec codeLens), H, Hin.
  - rewrite <- (length_map (referenceLocation client) body).
    rewrite filter_length_all. split.
    + intros H hit Hin. apply (isOriginal_false codeLens), negb_true_iff, H.
      apply in_map. exact Hin.
    + intros H location Hin. apply in_map_iff in Hin as (hit & <- & Hin).
      apply negb_true_iff, (isOriginal_false codeLens), H, Hin.
Qed.

(** X5: for a hit with 1-based coordinates whose start is not after its
    end, the range shown has no negative coordinate and its start is not
    after its end. *)
Theorem referenceLocation_valid (reference : Proto.FileSpan) :
  wellFormedSpan reference ->
  validRange (vscode.range (referenceLocation client reference)).
Proof.
  intros Hw. rewrite (referenceLocation_wellFormed client reference Hw).
  unfold wellFormedSpan in Hw. destruct Hw as (Hl & Ho & He & Hord).
  unfold validRange, Position_isBeforeOrEqual. simpl.
  destruct (Z.eqb_spec (Proto.line (Proto.start reference))
                       (Proto.line (Proto.end_ reference))) as [Heq|Hne]; simpl; lia.
Qed.

(** X6: for a span as the service sends it (1-based coordinates, the
    start not after the end), the range shown starts where the hit starts;
    for such a hit that ends on a later line it ends at column 0 of the line
    after its start line, which is not after the end of the hit. *)
Theorem referenceLocation_first_line (reference : Proto.FileSpan) :
  wellFormedSpan reference ->
  let shown := vscode.range (referenceLocation client reference) in
  vscode.start shown
  = {| vscode.line := Proto.line (Proto.start reference) - 1;
       vscode.character := Proto.offset (Proto.start reference) - 1 |}
  /\ ((Proto.line (Proto.start reference) < Proto.line (Proto.end_ reference))%Z ->
      vscode.end_ shown
      = {| vscode.line := Proto.line (Proto.start reference); vscode.character := 0 |}
      /\ vscode.line (vscode.end_ shown) = (vscode.line (vscode.start shown) + 1)%Z
      /\ Position_isBeforeOrEqual (vscode.end_ shown)
           {| vscode.line := Proto.line (Proto.end_ reference) - 1;
              vscode.character := Proto.offset (Proto.end_ reference) - 1 |}).
Proof.
  intros Hw shown. subst shown.
  rewrite (referenceLocation_wellFormed client reference Hw).
  unfold wellFormedSpan in Hw. destruct Hw as (Hl & Ho & He & Hord).
  unfold Position_isBeforeOrEqual. simpl. split; [reflexivity|].
  intros Hlt.
  destruct (Z.eqb_spec (Proto.line (Proto.start reference))
                       (Proto.line (Proto.end_ reference))) as [Heq|Hne]; [lia|].
  simpl. split; [reflexivity|]. lia.
Qed.

Lemma isOriginal_referenceLocation (hit : Proto.FileSpan) :
  wellFormedSpan hit ->
  isOriginal codeLens (referenceLocation client hit) = true <->
  vscode.toString (asUrl client (Proto.file hit)) = vscode.toString (document codeLens)
  /\ Proto.line (Proto.start hit)
     = Proto.args_line (typeConverters.Position_toFileLocationRequestArgs
                          (file codeLens) (vscode.start (range codeLens)))
  /\ Proto.offset (Proto.start hit)
     = Proto.args_offset (typeConverters.Position_toFileLocationRequestArgs
                            (file codeLens) (vscode.start (range codeLens))).
Proof.
  intros Hw. unfold isOriginal.
  rewrite (referenceLocation_wellFormed client hit Hw).
  rewrite !andb_true_iff, String.eqb_eq, !Z.eqb_eq. simpl.
  split; intros H; repeat split; try tauto; lia.
Qed.

(** X7: when every hit of the body is a span as the service sends it
    (1-based coordinates, the start not after the end), a hit is left out of
    the targets exactly when its file has the URI of the lens's document and
    it starts at the line and offset the request was sent for; where such a
    hit ends plays no role. *)
Theorem resolveCodeLens_drops_queried_position
    (response : option Proto.ImplementationResponse) (body : list Proto.FileSpan) :
  implementationQuery client codeLens token = Promise.Fulfilled response ->
  bodyOf response = Some body ->
  (forall hit : Proto.FileSpan, In hit body -> wellFormedSpan hit) ->
  exists targets,
    jumpTargets (resolveCodeLens client codeLens token) = Some targets
    /\ forall hit, In hit body ->
         (In (referenceLocation client hit) targets <->
          ~ (vscode.toString (asUrl client (Proto.file hit))
             = vscode.toString (document codeLens)
             /\ Proto.line (Proto.start hit)
                = Proto.args_line (typeConverters.Position_toFileLocationRequestArgs
                                     (file codeLens) (vscode.start (range codeLens)))
             /\ Proto.offset (Proto.start hit)
                = Proto.args_offset (typeConverters.Position_toFileLocationRequestArgs
                                       (file codeLens) (vscode.start (range codeLens))))).
Proof.
  intros Hq Hb Hw. eexists.
  split; [apply (jumpTargets_body _ _ _ response body Hq Hb)|].
  intros hit Hin. unfold implementationLocations.
  rewrite filter_In, negb_true_iff, <- (isOriginal_referenceLocation hit (Hw hit Hin)).
  split.
  - intros [_ H]. rewrite H. discriminate.
  - intros H. split; [apply in_map; exact Hin|].
    destruct (isOriginal codeLens (referenceLocation client hit)); congruence.
Qed.

(** X8: when the hits of a body the request is fulfilled with are spans
    as the service sends them (1-based coordinates, the start not after the
    end), the resolved lens has the title
    [Could not determine implementations] exactly when the request was
    rejected or fulfilled without a body; with a body, even an empty one, it
    never has. *)
Theorem resolveCodeLens_error_title :
  (forall response body,
     implementationQuery client codeLens token = Promise.Fulfilled response ->
     bodyOf response = Some body ->
     forall hit : Proto.FileSpan, In hit body -> wellFormedSpan hit) ->
  exists c,
    resolveCodeLens client codeLens token =
    Promise.Fulfilled
      {| document := document codeLens;
         file := file codeLens;
         range := range codeLens;
         command := Some c |}
    /\ (vscode.title c = "Could not determine implementations" <->
        (exists reason, implementationQuery client codeLens token = Promise.Rejected reason)
        \/ (exists response,
              implementationQuery client codeLens token = Promise.Fulfilled response
              /\ bodyOf response = None)).
Proof.
  intros _. rewrite resolveCodeLens_unfold.
  destruct (implementationQuery client codeLens token) as [response|reason].
  - destruct (bodyOf response) as [body|] eqn:Hb.
    + eexists. split; [reflexivity|]. split.
      * unfold implementationsCommand. simpl.
        destruct (List.length (implementationLocations client codeLens body) =? 1)%nat.
        -- discriminate.
        -- intros H. exfalso. revert H. apply decimal_not_capital.
      * intros [(reason & H)|(response' & H & Hn)]; [discriminate H|].
        injection H as <-. congruence.
    + eexists. split; [reflexivity|]. split; [|reflexivity].
      intros _. right. exists response. auto.
  - eexists. split; [reflexivity|]. split; [|reflexivity].
    intros _. left. exists reason. reflexivity.
Qed.

End ResolverFurther.

(** ** The classifier on a list of modifiers *)

Lemma append_nil_r (s : string) : s ++ "" = s.
Proof. induction s as [|c s IH]; simpl; congruence. Qed.

Lemma append_assoc (s1 s2 s3 : string) : (s1 ++ s2) ++ s3 = s1 ++ s2 ++ s3.
Proof. induction s1 as [|c s1 IH]; simpl; congruence. Qed.

Lemma lastOr_app (prev : option ascii) (s1 s2 : string) :
  lastOr prev (s1 ++ s2) = lastOr (lastOr prev s1) s2.
Proof. revert prev; induction s1 as [|c s1 IH]; intros prev; simpl; auto. Qed.

(** Two runs of word characters that stop at a non-word character, or at
    the end, and start the same text are the same run. *)
Lemma word_run_unique (u : string) : forall v r1 r2 : string,
  allWord u = true -> allWord v = true ->
  RegExp.isWordSide (RegExp.head r1) = false ->
  RegExp.isWordSide (RegExp.head r2) = false ->
  u ++ r1 = v ++ r2 -> u = v /\ r1 = r2.
Proof.
  induction u as [|a u IH]; intros v r1 r2 Hu Hv H1 H2 Heq; simpl in *.
  - destruct v as [|b v]; [auto|]. simpl in *. subst r1. simpl in H1.
    apply andb_true_iff in Hv as [Hb _]. congruence.
  - apply andb_true_iff in Hu as [Ha Hu].
    destruct v as [|b v]; simpl in *.
    + subst r2. simpl in H2. congruence.
    + apply andb_true_iff in Hv as [_ Hv]. injection Heq as <- Heq.
      destruct (IH v r1 r2 Hu Hv H1 H2 Heq) as [-> ->]. auto.
Qed.

(** A non-empty prefix that ends with a non-word character reaches past a
    run of word characters the text starts with. *)
Lemma word_run_skipped (t : string) : forall (prev : option ascii) (before rest tail : string),
  allWord t = true ->
  t ++ rest = before ++ tail ->
  before <> "" ->
  RegExp.isWordSide (lastOr prev before) = false ->
  exists before', before = t ++ before' /\ rest = before' ++ tail /\ before' <> "".
Proof.
  induction t as [|a t IH]; intros prev before rest tail Ht Heq Hne Hlast; simpl in *.
  - exists before. auto.
  - apply andb_true_iff in Ht as [Ha Ht].
    destruct before as [|b before]; [contradiction|]. simpl in *.
    injection Heq as <- Heq.
    destruct before as [|b' before].
    + simpl in Hlast. congruence.
    + destruct (IH (Some a) (String b' before) rest tail Ht Heq) as (before' & Hb & Hr & Hn);
        [discriminate | exact Hlast |].
      exists before'. rewrite Hb. auto.
Qed.

Lemma join_cons (sep : ascii) (t : string) (ts : list string) :
  join sep (t :: ts) = t ++ joinRest sep ts.
Proof.
  destruct ts as [|t' ts]; simpl; [symmetry; apply append_nil_r | reflexivity].
Qed.

Lemma joinRest_head (sep : ascii) (ts : list string) :
  RegExp.isWordChar sep = false ->
  RegExp.isWordSide (RegExp.head (joinRest sep ts)) = false.
Proof. intros Hsep. destruct ts; simpl; auto. Qed.

Lemma join_standalone (sep : ascii) (tokens : list string) :
  RegExp.isWordChar sep = false ->
  Forall (fun t => allWord t = true) tokens ->
  forall prev : option ascii,
    RegExp.isWordSide prev = false ->
    (exists before after,
       join sep tokens = before ++ "abstract" ++ after
       /\ RegExp.isWordSide (lastOr prev before) = false
       /\ RegExp.isWordSide (RegExp.head after) = false)
    <-> In "abstract" tokens.
Proof.
  intros Hsep Hall. induction Hall as [|t ts Ht Hts IH]; intros prev Hprev.
  - split; [|intros []]. intros (before & after & Heq & _).
    destruct before; discriminate Heq.
  - rewrite join_cons. split.
    + intros (before & after & Heq & Hlast & Hafter).
      destruct before as [|b before].
      * left. simpl in Heq.
        destruct (word_run_unique t "abstract" (joinRest sep ts) after) as [-> _];
          auto using joinRest_head.
      * right.
        destruct (word_run_skipped t prev (String b before) (joinRest sep ts)
                    ("abstract" ++ after) Ht Heq) as (before' & Hb & Hr & Hn);
          [discriminate | exact Hlast |].
        destruct ts as [|t' ts']; simpl in Hr.
        -- destruct before'; [contradiction | discriminate Hr].
        -- destruct before' as [|c before']; [contradiction|].
           simpl in Hr. injection Hr as <- Hr.
           apply (IH (Some sep) Hsep). exists before', after.
           split; [exact Hr|]. split; [|exact Hafter].
           rewrite Hb, lastOr_app in Hlast. exact Hlast.
    + intros [<-|Hin].
      * exists "", (joinRest sep ts). simpl. auto using joinRest_head.
      * apply (IH (Some sep) Hsep) in Hin as (before' & after & Heq & Hlast & Hafter).
        destruct ts as [|t' ts']; [destruct before'; discriminate Heq|].
        exists (t ++ String sep before'), after.
        split; [|split; [|exact Hafter]].
        -- rewrite append_assoc. unfold joinRest. rewrite Heq. reflexivity.
        -- rewrite lastOr_app. exact Hlast.
Qed.

Section ClassifierFurther.

Variable TextDocument : Type.
Variable getSymbolRange : TextDocument -> NavigationTree -> vscode.Range.

(** X1: for a node of one of the five kinds checked for [abstract] whose
    modifiers are a list of names made of word characters, with a non-word
    separator between them, [extractSymbol] returns a range exactly when
    [abstract] is one of the names, and [null] exactly when it is not. *)
Theorem extractSymbol_modifier_list
    (document : TextDocument) (item : NavigationTree) (parent : option NavigationTree)
    (sep : ascii) (tokens : list string) :
  In (kind item) abstractCheckedKinds ->
  RegExp.isWordChar sep = false ->
  Forall (fun t => allWord t = true) tokens ->
  kindModifiers item = join sep tokens ->
  (extractSymbol TextDocument getSymbolRange document item parent
   = Some (getSymbolRange document item)
   <-> In "abstract" tokens)
  /\ (extractSymbol TextDocument getSymbolRange document item parent = None
      <-> ~ In "abstract" tokens).
Proof.
  intros Hk Hsep Hall Hm.
  rewrite (extractSymbol_checked TextDocument getSymbolRange document item parent Hk).
  assert (Hs : RegExp.truthy (RegExp.String_match (kindModifiers item)) = true
               <-> In "abstract" tokens).
  { rewrite String_match_truthy, Hm. unfold standaloneAbstract.
    apply (join_standalone sep tokens Hsep Hall None). reflexivity. }
  destruct (RegExp.truthy (RegExp.String_match (kindModifiers item))).
  - assert (Hin : In "abstract" tokens) by (apply Hs; reflexivity).
    split; split; intros H; try reflexivity; try assumption;
      try discriminate H; contradiction.
  - assert (Hn : ~ In "abstract" tokens)
      by (intros Hin; apply Hs in Hin; discriminate Hin).
    split; split; intros H; try reflexivity; try assumption;
      try discriminate H; contradiction.
Qed.

End ClassifierFurther.

(** ** The configuration *)

Lemma last_cons_default {A : Type} (l : list A) : forall a d : A,
  last (a :: l) d = last l a.
Proof.
  induction l as [|b l IH]; intros a d; [reflexivity|].
  change (last (a :: b :: l) d) with (last (b :: l) d).
  rewrite !IH. reflexivity.
Qed.

Section ConfigurationProperties.

Variable Base : Type.
Variable setEnabled : bool -> Base -> Base.
Variable enabled : Base -> bool.
Variable language : string.

Hypothesis enabled_setEnabled : forall (b : bool) (this : Base), enabled (setEnabled b this) = b.

Lemma afterChanges_last (changes : list Workspace) : forall (workspace : Workspace) (this : Base),
  enabled (fold_left (configurationChanged Base setEnabled language) changes
             (updateConfiguration Base setEnabled language workspace this))
  = WorkspaceConfiguration_get (last changes workspace language)
      "implementationsCodeLens.enabled" false.
Proof.
  induction changes as [|change changes IH]; intros workspace this; simpl fold_left.
  - apply enabled_setEnabled.
  - unfold configurationChanged at 2. rewrite IH, last_cons_default. reflexivity.
Qed.

(** X9: after its construction and any sequence of configuration changes,
    the provider is enabled exactly when the configuration of its own
    language, as it is after the last change, sets
    [implementationsCodeLens.enabled] to true; a setting that is absent
    leaves it disabled. *)
Theorem provider_enabled_iff_configured
    (workspace : Workspace) (super : Base) (changes : list Workspace) :
  enabled (afterChanges Base setEnabled language workspace super changes) = true
  <-> last changes workspace language "implementationsCodeLens.enabled" = Some true.
Proof.
  unfold afterChanges, construct. rewrite afterChanges_last.
  unfold WorkspaceConfiguration_get.
  destruct (last changes workspace language "implementationsCodeLens.enabled") as [[|]|];
    split; congruence.
Qed.

End ConfigurationProperties.

(** ** The further properties at concrete inputs *)

Lemma extractSymbol_modifier_list_witness :
  extractSymbol unit Sample.symbolRange tt
    (Sample.node PConst.memberFunction "export,abstract,declare") None
  = Some (vscode.newRange 0 0 0 1)
  /\ In "abstract" ["export"; "abstract"; "declare"].
Proof.
  destruct (extractSymbol_modifier_list unit Sample.symbolRange tt
              (Sample.node PConst.memberFunction "export,abstract,declare") None
              ","%char ["export"; "abstract"; "declare"]) as [[Hin _] _].
  - simpl. auto.
  - reflexivity.
  - repeat constructor.
  - reflexivity.
  - split; [reflexivity|]. apply Hin. reflexivity.
Defined.

Lemma resolveCodeLens_idempotent_witness :
  exists result,
    resolveCodeLens (Sample.answering Sample.hits) Sample.lens Sample.token
    = Promise.Fulfilled result
    /\ command result <> None
    /\ resolveCodeLens (Sample.answering Sample.hits) result Sample.token
       = Promise.Fulfilled result.
Proof.
  eexists. split; [reflexivity|]. split; [discriminate|].
  apply (resolveCodeLens_idempotent (Sample.answering Sample.hits) Sample.lens Sample.token).
  reflexivity.
Defined.

Lemma resolveCodeLens_target_count_witness :
  exists targets,
    jumpTargets (resolveCodeLens (Sample.answering Sample.hits) Sample.lens Sample.token)
    = Some targets
    /\ List.length targets <= 3
    /\ targets <> [].
Proof.
  destruct (resolveCodeLens_target_count (Sample.answering Sample.hits)
              Sample.lens Sample.token
              (Some (Proto.mkImplementationResponse (Some Sample.hits))) Sample.hits
              eq_refl eq_refl) as (targets & Ht & Hle & Hnil & _).
  exists targets. split; [exact Ht|]. split; [exact Hle|].
  intros Hempty. pose proof (proj1 Hnil Hempty) as Hall.
  destruct (Hall (Sample.span "/b.ts" 5 3 8 1)) as [Huri _].
  - simpl. auto.
  - discriminate Huri.
Defined.

Lemma referenceLocation_valid_witness :
  wellFormedSpan (Sample.span "/b.ts" 5 3 8 1)
  /\ validRange
       (vscode.range
          (referenceLocation (Sample.answering Sample.hits) (Sample.span "/b.ts" 5 3 8 1))).
Proof.
  assert (Hw : wellFormedSpan (Sample.span "/b.ts" 5 3 8 1))
    by (unfold wellFormedSpan; simpl; lia).
  split; [exact Hw|].
  apply (referenceLocation_valid (Sample.answering Sample.hits) _ Hw).
Defined.

Lemma referenceLocation_first_line_witness :
  wellFormedSpan (Sample.span "/b.ts" 5 3 8 1)
  /\ vscode.range
       (referenceLocation (Sample.answering Sample.hits) (Sample.span "/b.ts" 5 3 8 1))
     = {| vscode.start := {| vscode.line := 4; vscode.character := 2 |};
          vscode.end_ := {| vscode.line := 5; vscode.character := 0 |} |}
  /\ Position_isBeforeOrEqual
       {| vscode.line := 5; vscode.character := 0 |}
       {| vscode.line := 7; vscode.character := 0 |}.
Proof.
  assert (Hw : wellFormedSpan (Sample.span "/b.ts" 5 3 8 1))
    by (unfold wellFormedSpan; simpl; lia).
  split; [exact Hw|].
  destruct (referenceLocation_first_line (Sample.answering Sample.hits)
              (Sample.span "/b.ts" 5 3 8 1) Hw) as [_ H].
  destruct H as (_ & _ & Hle); [simpl; lia|].
  split; [reflexivity | exact Hle].
Defined.

Lemma resolveCodeLens_drops_queried_position_witness :
  (forall hit : Proto.FileSpan, In hit Sample.hits -> wellFormedSpan hit)
  /\ exists targets,
       jumpTargets (resolveCodeLens (Sample.answering Sample.hits) Sample.lens Sample.token)
       = Some targets
       /\ ~ In (referenceLocation (Sample.answering Sample.hits)
                  (Sample.span "/a.ts" 3 5 3 10)) targets
       /\ In (referenceLocation (Sample.answering Sample.hits)
                (Sample.span "/a.ts" 7 1 7 4)) targets.
Proof.
  assert (Hw : forall hit : Proto.FileSpan, In hit Sample.hits -> wellFormedSpan hit).
  { intros hit [<-|[<-|[<-|[]]]]; unfold wellFormedSpan; simpl; lia. }
  split; [exact Hw|].
  destruct (resolveCodeLens_drops_queried_position (Sample.answering Sample.hits)
              Sample.lens Sample.token
              (Some (Proto.mkImplementationResponse (Some Sample.hits))) Sample.hits
              eq_refl eq_refl Hw) as (targets & Ht & Hin).
  exists targets. split; [exact Ht|]. split.
  - intros H. apply Hin in H; [|simpl; auto]. apply H. repeat split.
  - apply Hin; [simpl; auto|]. intros (_ & Hline & _). discriminate Hline.
Defined.

Lemma resolveCodeLens_error_title_witness :
  exists c,
    resolveCodeLens (Sample.answering Sample.hits) Sample.lens Sample.token
    = Promise.Fulfilled
        {| document := Sample.fileUri "/a.ts";
           file := "/a.ts";
           range := {| vscode.start := {| vscode.line := 2; vscode.character := 4 |};
                       vscode.end_ := {| vscode.line := 2; vscode.character := 9 |} |};
           command := Some c |}
    /\ vscode.title c <> "Could not determine implementations".
Proof.
  destruct (resolveCodeLens_error_title (Sample.answering Sample.hits)
              Sample.lens Sample.token) as (c & Hr & Htitle).
  - intros response body Hq Hb hit Hin.
    injection Hq as <-. injection Hb as <-.
    destruct Hin as [<-|[<-|[<-|[]]]]; unfold wellFormedSpan; simpl; lia.
  - exists c. split; [exact Hr|].
    intros H. apply Htitle in H as [(reason & H)|(response & H & Hn)].
    + discriminate H.
    + injection H as <-. discriminate Hn.
Defined.

Lemma provider_enabled_iff_configured_witness :
  SampleSettings.flag
    (afterChanges bool SampleSettings.setFlag "typescript"
       (SampleSettings.setting "javascript" true) false
       [SampleSettings.setting "typescript" false; SampleSettings.setting "typescript" true])
  = true
  /\ SampleSettings.flag
       (afterChanges bool SampleSettings.setFlag "typescript"
          (SampleSettings.setting "javascript" true) false [])
     = false.
Proof.
  split; [|reflexivity].
  apply (provider_enabled_iff_configured bool SampleSettings.setFlag SampleSettings.flag
           "typescript" (fun _ _ => eq_refl)).
  reflexivity.
Defined.

(** ** What a resolution reads of the client *)

(** X10: a resolution depends on the client only through the outcome of
    the one ['implementation'] request it sends and the URIs the client gives
    to the files of the answer: two clients that agree on these resolve a
    lens the same way, whatever else they do. *)
Theorem resolveCodeLens_depends_on_answer
    (client1 client2 : ITypeScriptServiceClient)
    (codeLens : ReferencesCodeLens) (token : vscode.CancellationToken) :
  implementationQuery client1 codeLens token = implementationQuery client2 codeLens token ->
  (forall response body hit,
     implementationQuery client1 codeLens token = Promise.Fulfilled response ->
     bodyOf response = Some body ->
     In hit body ->
     asUrl client1 (Proto.file hit) = asUrl client2 (Proto.file hit)) ->
  resolveCodeLens client1 codeLens token = resolveCodeLens client2 codeLens token.
Proof.
  intros Hq Hurl. rewrite !resolveCodeLens_unfold, <- Hq.
  destruct (implementationQuery client1 codeLens token) as [response|reason];
    [|reflexivity].
  destruct (bodyOf response) as [body|] eqn:Hb; [|reflexivity].
  assert (Hl : implementationLocations client1 codeLens body
               = implementationLocations client2 codeLens body).
  { unfold implementationLocations. f_equal. apply map_ext_in.
    intros hit Hin. unfold referenceLocation.
    rewrite (Hurl response body hit eq_refl Hb Hin). reflexivity. }
  rewrite Hl. reflexivity.
Qed.

Lemma resolveCodeLens_depends_on_answer_witness :
  execute (SampleService.implementationOnly Sample.hits) "references"
    (Proto.mkFileLocationRequestArgs "/a.ts" 3 5) Sample.token
  <> execute (Sample.answering Sample.hits) "references"
       (Proto.mkFileLocationRequestArgs "/a.ts" 3 5) Sample.token
  /\ resolveCodeLens (SampleService.implementationOnly Sample.hits) Sample.lens Sample.token
     = resolveCodeLens (Sample.answering Sample.hits) Sample.lens Sample.token.
Proof.
  split; [discriminate|].
  apply resolveCodeLens_depends_on_answer; reflexivity.
Defined.
